(** * Frame handoff and UI-key edge detection of the SDL backend
    (src/src/sdl_backend.cpp).

    The emulation thread draws into [back_buffer] with [put_pixel] and
    publishes with [draw_frame]; the SDL thread ([sdl_thread]) waits on
    [frame_available_cond] under [frame_lock], and [exit_sdl_thread] asks it
    to stop.  Every critical section protected by [frame_lock] is one atomic
    step of the model; the events a step performs are appended to a log, so
    that what happens between [SDL_LockMutex] and [SDL_UnlockMutex] is
    visible in the statements. *)

From Stdlib Require Import ZArith List Bool Lia.
Import ListNotations.
Open Scope Z_scope.

Module Handoff.

(** The two physical buffers [render_buffers[0]] and [render_buffers[1]]. *)
Inductive bufid := Buf0 | Buf1.

Definition bufid_eqb (a b : bufid) : bool :=
  match a, b with
  | Buf0, Buf0 | Buf1, Buf1 => true
  | _, _ => false
  end.

(** A buffer of [240*256] [Uint32] pixels, indexed by [256*y + x]. *)
Definition pixbuf := Z -> Z.

Definition upd_pix (b : pixbuf) (i c : Z) : pixbuf :=
  fun j => if Z.eqb j i then c else b j.

Definition upd_buf (m : bufid -> pixbuf) (k : bufid) (b : pixbuf)
  : bufid -> pixbuf :=
  fun k' => if bufid_eqb k' k then b else m k'.

(** Where [sdl_thread] is: at the top of its [for (;;)] loop, blocked in
    [SDL_CondWait] (the flag says whether a signal has woken it), between
    the frame pick-up and the next iteration (carrying the value of
    [front_buffer] it found on leaving the lock), or returned. *)
Inductive sdl_pc :=
| PTop
| PWaiting (woken : bool)
| PPresenting (h : bufid)
| PExited.

(** Synchronisation events on [frame_lock] and the flags it protects. *)
Inductive frame_ev :=
| LockFrame | UnlockFrame
| SetAvail | SwapBuffers | CondSignal
| SetReady | ClearFlags | SetExit | CondWaitRelease.

Record state := mkState {
  render_buffers : bufid -> pixbuf;
  back_buffer : bufid;
  front_buffer : bufid;
  ready_to_draw_new_frame : bool;
  frame_available : bool;
  pending_sdl_thread_exit : bool;
  sdl : sdl_pc;
  frame_log : list frame_ev }.

Definition set_sdl (p : sdl_pc) (s : state) : state :=
  mkState (render_buffers s) (back_buffer s) (front_buffer s)
    (ready_to_draw_new_frame s) (frame_available s)
    (pending_sdl_thread_exit s) p (frame_log s).

Definition log_ev (evs : list frame_ev) (s : state) : state :=
  mkState (render_buffers s) (back_buffer s) (front_buffer s)
    (ready_to_draw_new_frame s) (frame_available s)
    (pending_sdl_thread_exit s) (sdl s) (frame_log s ++ evs).

(** [SDL_CondSignal(frame_available_cond)]: wakes the SDL thread if it is
    blocked in [SDL_CondWait]. *)
Definition cond_signal (s : state) : state :=
  let s := log_ev [CondSignal] s in
  match sdl s with
  | PWaiting _ => set_sdl (PWaiting true) s
  | _ => s
  end.

(** Result of an [assert]: failure aborts the process. *)
Inductive assert_result (A : Type) :=
| AssertFail
| Ret (a : A).
Arguments AssertFail {A}.
Arguments Ret {A} a.

Definition u32 (v : Z) : Z := v mod 2 ^ 32.

(** [put_pixel(unsigned x, unsigned y, uint32_t color)] (lines 82-87). *)
Definition put_pixel (x y color : Z) (s : state) : assert_result state :=
  if negb (x <? 256) then AssertFail
  else if negb (y <? 240) then AssertFail
  else
    let i := u32 (256 * y + x) in
    Ret (mkState
      (upd_buf (render_buffers s) (back_buffer s)
         (upd_pix (render_buffers s (back_buffer s)) i color))
      (back_buffer s) (front_buffer s)
      (ready_to_draw_new_frame s) (frame_available s)
      (pending_sdl_thread_exit s) (sdl s) (frame_log s)).

(** [frame_available = true]. *)
Definition set_frame_available (s : state) : state :=
  mkState (render_buffers s) (back_buffer s) (front_buffer s)
    (ready_to_draw_new_frame s) true (pending_sdl_thread_exit s) (sdl s)
    (frame_log s ++ [SetAvail]).

(** [swap(back_buffer, front_buffer)]: the handles only. *)
Definition swap_handles (s : state) : state :=
  mkState (render_buffers s) (front_buffer s) (back_buffer s)
    (ready_to_draw_new_frame s) (frame_available s)
    (pending_sdl_thread_exit s) (sdl s) (frame_log s ++ [SwapBuffers]).

(** [pending_sdl_thread_exit = true]. *)
Definition set_pending_exit (s : state) : state :=
  mkState (render_buffers s) (back_buffer s) (front_buffer s)
    (ready_to_draw_new_frame s) (frame_available s) true (sdl s)
    (frame_log s ++ [SetExit]).

(** [draw_frame()] (lines 89-106), without the [RECORD_MOVIE] hook, which
    only reads [back_buffer]. *)
Definition draw_frame (s : state) : state :=
  let s := log_ev [LockFrame] s in
  if ready_to_draw_new_frame s then
    log_ev [UnlockFrame] (cond_signal (swap_handles (set_frame_available s)))
  else log_ev [UnlockFrame] s.

(** [exit_sdl_thread()] (lines 267-272). *)
Definition exit_sdl_thread (s : state) : state :=
  log_ev [UnlockFrame] (cond_signal (set_pending_exit (log_ev [LockFrame] s))).

(** The part of [sdl_thread] run with [frame_lock] held after the lock is
    (re)acquired: the test of the [while] loop (lines 214-215), and when it
    fails the exit test (216-219) or the pick-up of the frame (220-221). *)
Definition wait_test (s : state) : state :=
  if negb (frame_available s) && negb (pending_sdl_thread_exit s) then
    set_sdl (PWaiting false) (log_ev [CondWaitRelease] s)
  else if pending_sdl_thread_exit s then
    set_sdl PExited (log_ev [UnlockFrame] s)
  else
    mkState (render_buffers s) (back_buffer s) (front_buffer s)
      false false (pending_sdl_thread_exit s)
      (PPresenting (front_buffer s)) (frame_log s ++ [ClearFlags; UnlockFrame]).

(** Top of the loop: lines 212-213, then the test. *)
Definition sdl_wait_enter (s : state) : state :=
  let s := log_ev [LockFrame; SetReady] s in
  wait_test (mkState (render_buffers s) (back_buffer s) (front_buffer s)
               true (frame_available s) (pending_sdl_thread_exit s)
               (sdl s) (frame_log s)).

(** Return from [SDL_CondWait], which reacquires the lock, then the test. *)
Definition sdl_wait_wake (s : state) : state :=
  wait_test (log_ev [LockFrame] s).

(** Lines 226-263: [process_events()] (an [SDL_QUIT] event sets
    [pending_sdl_thread_exit] under [event_lock] only), then the upload of
    [front_buffer] to the screen texture, which only reads it. *)
Definition sdl_present (quit : bool) (s : state) : state :=
  mkState (render_buffers s) (back_buffer s) (front_buffer s)
    (ready_to_draw_new_frame s) (frame_available s)
    (pending_sdl_thread_exit s || quit) PTop (frame_log s).

(** One atomic step of either thread. *)
Inductive label :=
| LPutPixel (x y color : Z)
| LDrawFrame
| LExitSdl
| LWaitEnter
| LWaitWake
| LPresent (quit : bool).

Definition exec_step (s : state) (l : label) : option state :=
  match l with
  | LPutPixel x y c =>
      match put_pixel x y c s with Ret s' => Some s' | AssertFail => None end
  | LDrawFrame => Some (draw_frame s)
  | LExitSdl => Some (exit_sdl_thread s)
  | LWaitEnter =>
      match sdl s with PTop => Some (sdl_wait_enter s) | _ => None end
  | LWaitWake =>
      match sdl s with PWaiting true => Some (sdl_wait_wake s) | _ => None end
  | LPresent q =>
      match sdl s with PPresenting _ => Some (sdl_present q s) | _ => None end
  end.

Fixpoint run (s : state) (ls : list label) : option state :=
  match ls with
  | [] => Some s
  | l :: ls' => match exec_step s l with Some s' => run s' ls' | None => None end
  end.

(** State after [init_sdl]: static storage is zero, [back_buffer] is
    [render_buffers[0]], [front_buffer] is [render_buffers[1]]. *)
Definition init : state :=
  mkState (fun _ _ => 0) Buf0 Buf1 false false false PTop [].

Definition reachable (s : state) : Prop := exists ls, run init ls = Some s.

(** Invariants of every reachable state. *)
Definition inv (s : state) : Prop :=
  back_buffer s <> front_buffer s /\
  (frame_available s = true -> ready_to_draw_new_frame s = true) /\
  (sdl s = PWaiting false -> pending_sdl_thread_exit s = false) /\
  (forall h, sdl s = PPresenting h ->
     h = front_buffer s /\ ready_to_draw_new_frame s = false).

(** The SDL thread after [SDL_CondSignal]. *)
Definition wake_waiter (p : sdl_pc) : sdl_pc :=
  match p with PWaiting _ => PWaiting true | p => p end.

(** Steps of the threads other than the SDL thread: the emulation thread
    ([put_pixel], [draw_frame]) and the shutdown path ([exit_sdl_thread]). *)
Definition emu_label (l : label) : bool :=
  match l with LPutPixel _ _ _ | LDrawFrame | LExitSdl => true | _ => false end.

(** Steps of [sdl_thread]. *)
Definition sdl_label (l : label) : bool :=
  match l with LWaitEnter | LWaitWake | LPresent _ => true | _ => false end.


End Handoff.

(** * Keyboard snapshot and UI hotkeys (lines 131-203). *)
Module Input.

(** SDL scancodes used by [handle_ui_keys]. *)
Definition SDL_SCANCODE_D := 7%nat.
Definition SDL_SCANCODE_ESCAPE := 41%nat.
Definition SDL_SCANCODE_BACKSPACE := 42%nat.
Definition SDL_SCANCODE_F3 := 60%nat.
Definition SDL_SCANCODE_F4 := 61%nat.
Definition SDL_SCANCODE_F5 := 62%nat.
Definition SDL_SCANCODE_F8 := 65%nat.
Definition SDL_SCANCODE_LALT := 226%nat.
Definition SDL_NUM_SCANCODES := 512%nat.

(** A [Uint8] array, read as [a[i]]. *)
Definition get (a : list Z) (i : nat) : Z := nth i a 0.

(** C's logical [!] on an integer. *)
Definition c_not (v : Z) : Z := if Z.eqb v 0 then 1 else 0.

(** [#define KEY_PRESSED(i) ( (keys[i]) & (!keys_lf[i]) )] *)
Definition KEY_PRESSED (keys keys_lf : list Z) (i : nat) : Z :=
  Z.land (get keys i) (c_not (get keys_lf i)).

(** [#define KEY_RELEASED(i) ( (!keys[i]) & (keys_lf[i]) )] *)
Definition KEY_RELEASED (keys keys_lf : list Z) (i : nat) : Z :=
  Z.land (c_not (get keys i)) (get keys_lf i).

Inductive thread := Emu | Sdl.

(** Position of the emulation thread in [handle_ui_keys]: before the lock,
    holding [event_lock] before / after the key reads, after the unlock
    (before the [memcpy]), or gone through [exit(0)]. *)
Inductive emu_pc := HKStart | HKLocked | HKRead | HKUnlocked | HKExit.

(** Calls [handle_ui_keys] makes to the rest of the emulator. *)
Inductive ui_effect :=
| CorruptUp | CorruptDown | SaveState | LoadState
| Rewind (held : bool) | SoftReset.

Inductive in_ev :=
| EvLock (t : thread) | EvUnlock (t : thread)
| EvRead | EvPoll | EvCommit (holder : option thread).

Record istate := mkIState {
  keys : list Z;
  keys_lf : list Z;
  keys_size : Z;
  event_lock : option thread;
  emu : emu_pc;
  show_debugger : bool;
  reset_pushed : bool;
  effects : list ui_effect;
  in_log : list (thread * in_ev) }.

(** The reads of lines 149-171, done with [event_lock] held. *)
Definition ui_reads (s : istate) : istate :=
  let k := keys s in
  let lf := keys_lf s in
  let held i := negb (Z.eqb (get k i) 0) in
  let e1 := if negb (Z.eqb (KEY_PRESSED k lf SDL_SCANCODE_F3) 0) then [CorruptUp] else [] in
  let e2 := if negb (Z.eqb (KEY_PRESSED k lf SDL_SCANCODE_F4) 0) then [CorruptDown] else [] in
  let dbg :=
    if held SDL_SCANCODE_LALT && negb (Z.eqb (KEY_PRESSED k lf SDL_SCANCODE_D) 0)
    then negb (show_debugger s) else show_debugger s in
  let e3 := if held SDL_SCANCODE_F5 then [SaveState]
            else if held SDL_SCANCODE_F8 then [LoadState] else [] in
  let e4 := [Rewind (held SDL_SCANCODE_BACKSPACE)] in
  let e5 := if reset_pushed s then [SoftReset] else [] in
  mkIState k lf (keys_size s) (event_lock s)
    (if held SDL_SCANCODE_ESCAPE then HKExit else HKRead)
    (if held SDL_SCANCODE_ESCAPE then show_debugger s else dbg)
    (reset_pushed s)
    (if held SDL_SCANCODE_ESCAPE then effects s
     else effects s ++ e1 ++ e2 ++ e3 ++ e4 ++ e5)
    (in_log s ++ [(Emu, EvRead)]).

(** [memcpy(keys_lf, keys, keys_size * sizeof(Uint8))]. *)
Definition copy_prefix (src dst : list Z) (n : nat) : list Z :=
  firstn n src ++ skipn n dst.

(** One step of a thread. *)
Inductive ilabel :=
| HkLock        (* line 147 *)
| HkBody        (* lines 149-171 *)
| HkUnlock      (* line 173 *)
| HkCommit      (* line 174 *)
| ProcessEvents (now_held : list Z). (* lines 184-202, one critical section *)

Definition istep (s : istate) (l : ilabel) : option istate :=
  match l, emu s with
  | HkLock, HKStart =>
      match event_lock s with
      | None => Some (mkIState (keys s) (keys_lf s) (keys_size s) (Some Emu)
                        HKLocked (show_debugger s) (reset_pushed s) (effects s)
                        (in_log s ++ [(Emu, EvLock Emu)]))
      | Some _ => None
      end
  | HkBody, HKLocked => Some (ui_reads s)
  | HkUnlock, HKRead =>
      Some (mkIState (keys s) (keys_lf s) (keys_size s) None
              HKUnlocked (show_debugger s) (reset_pushed s) (effects s)
              (in_log s ++ [(Emu, EvUnlock Emu)]))
  | HkCommit, HKUnlocked =>
      let lf := if Z.eqb (keys_size s) 0 then keys_lf s
                else copy_prefix (keys s) (keys_lf s) (Z.to_nat (keys_size s)) in
      Some (mkIState (keys s) lf (keys_size s) (event_lock s)
              HKStart (show_debugger s) (reset_pushed s) (effects s)
              (in_log s ++ [(Emu, EvCommit (event_lock s))]))
  | ProcessEvents nk, _ =>
      (* SDL_PollEvent pumps the event queue, which refreshes the array
         returned by SDL_GetKeyboardState *)
      match event_lock s with
      | None => Some (mkIState nk (keys_lf s) (keys_size s) None
                        (emu s) (show_debugger s) (reset_pushed s) (effects s)
                        (in_log s ++ [(Sdl, EvLock Sdl); (Sdl, EvPoll);
                                      (Sdl, EvUnlock Sdl)]))
      | Some _ => None
      end
  | _, _ => None
  end.

Fixpoint irun (s : istate) (ls : list ilabel) : option istate :=
  match ls with
  | [] => Some s
  | l :: ls' => match istep s l with Some s' => irun s' ls' | None => None end
  end.

(** The labels of one call of [handle_ui_keys] by the emulation thread. *)
Definition handle_ui_keys : list ilabel := [HkLock; HkBody; HkUnlock; HkCommit].

(** [keys] / [keys_lf] after [init_sdl]: [SDL_NUM_SCANCODES] entries. *)
Definition iinit : istate :=
  mkIState (repeat 0 SDL_NUM_SCANCODES) (repeat 0 SDL_NUM_SCANCODES)
    (Z.of_nat SDL_NUM_SCANCODES) None HKStart false false [] [].

(** Keyboard state with the listed scancodes held. *)
Definition held_keys (ks : list nat) : list Z :=
  map (fun i => if existsb (Nat.eqb i) ks then 1 else 0)
      (seq 0 SDL_NUM_SCANCODES).

End Input.

(** * On-screen debug console (lines 75-77, 236-262, 390-424). *)
Module Debug.

(** [Uint8] arithmetic. *)
Definition u8 (v : Z) : Z := v mod 256.

(** [debug_contents[128*60]], [debug_colors[128*60]] and the cursor. *)
Record dbg := mkDbg {
  debug_contents : Z -> Z;
  debug_colors : Z -> Z;
  debug_cur_color : Z;
  debug_cur_x : Z;
  debug_cur_y : Z }.

Definition upd (a : Z -> Z) (i v : Z) : Z -> Z :=
  fun j => if Z.eqb j i then v else a j.

Definition set_cursor (x y : Z) (d : dbg) : dbg :=
  mkDbg (debug_contents d) (debug_colors d) (debug_cur_color d) x y.

Definition set_color (c : Z) (d : dbg) : dbg :=
  mkDbg (debug_contents d) (debug_colors d) c (debug_cur_x d) (debug_cur_y d).

(** [memcpy(a, a + 128, 128*59)]: the regions overlap; the copy is taken
    front to back, which gives the same result as [memmove]. *)
Definition shift_rows (a : Z -> Z) : Z -> Z :=
  fun j => if (0 <=? j) && (j <? 128 * 59) then a (j + 128) else a j.

(** [sdldbg_scroll()] (lines 390-393). *)
Definition sdldbg_scroll (d : dbg) : dbg :=
  mkDbg (shift_rows (debug_contents d)) (shift_rows (debug_colors d))
    (debug_cur_color d) (debug_cur_x d) (debug_cur_y d).

(** One iteration of the loop of [sdldbg_puts] (lines 401-416) on the byte
    [c]; [None] when the store of line 402 falls outside the 7680-byte
    arrays (undefined behaviour). *)
Definition puts_char (c : Z) (d : dbg) : option dbg :=
  let written :=
    if (32 <=? c) && (c <? 128) then
      let i := debug_cur_y d * 128 + debug_cur_x d in
      if (0 <=? i) && (i <? 128 * 60) then
        Some (mkDbg (upd (debug_contents d) i c)
                (upd (debug_colors d) i (debug_cur_color d))
                (debug_cur_color d) (u8 (debug_cur_x d + 1)) (debug_cur_y d))
      else None
    else Some d in
  match written with
  | None => None
  | Some d1 =>
      let d2 := if (c =? 10) || (c =? 13)
                then set_cursor 0 (u8 (debug_cur_y d1 + 1)) d1 else d1 in
      let d3 := if 240 <=? c then set_color (u8 (c - 240)) d2 else d2 in
      let d4 := if 128 <=? debug_cur_x d3
                then set_cursor 0 (u8 (debug_cur_y d3 + 1)) d3 else d3 in
      Some (if 60 <=? debug_cur_y d4
            then set_cursor (debug_cur_x d4) 59 (sdldbg_scroll d4) else d4)
  end.

(** [sdldbg_puts(s)] (lines 395-419) on the bytes of [s]; the loop stops at
    the terminating NUL.  The function always returns 0. *)
Fixpoint sdldbg_puts (s : list Z) (d : dbg) : option dbg :=
  match s with
  | [] => Some d
  | c :: s' =>
      if c =? 0 then Some d
      else match puts_char c d with
           | Some d' => sdldbg_puts s' d'
           | None => None
           end
  end.

(** [mvsdldbg_puts(s, x, y)] (lines 421-424): the [char] coordinates are
    stored in the [Uint8] cursor unchecked. *)
Definition mvsdldbg_puts (s : list Z) (x y : Z) (d : dbg) : option dbg :=
  sdldbg_puts s (set_cursor (u8 x) (u8 y) d).

(** Static storage: all zero. *)
Definition dbg_init : dbg := mkDbg (fun _ => 0) (fun _ => 0) 0 0 0.

Definition zseq (n : nat) : list Z := map Z.of_nat (seq 0 n).

(** Every cell is empty (0) or holds a printable byte, the only bytes the
    store of line 402 writes. *)
Definition cells_ok (a : Z -> Z) : Prop := forall j, a j = 0 \/ 32 <= a j < 128.

(** The glyph copies of the debugger overlay in [sdl_thread]
    (lines 237-259): for each cell holding a byte [>= 32], the source
    rectangle [(charrect.x, charrect.y)] in the font and the destination
    [(dbgrect.x, dbgrect.y)]; both rectangles are 5x8. *)
Definition overlay (contents : Z -> Z) (win_w win_h : Z) : list (Z * Z * Z * Z) :=
  let dx := Z.quot win_w 2 - 320 in
  let dy := Z.quot win_h 2 - 240 in
  flat_map (fun iy =>
    flat_map (fun ix =>
      let c := contents (iy * 128 + ix) in
      if 32 <=? c
      then [(Z.rem (c - 32) 16 * 5, Z.quot (c - 32) 16 * 8, dx + ix * 5, dy + iy * 8)]
      else [])
      (zseq 128))
    (zseq 60).

End Debug.

(** * Letterboxing of the picture (lines 41-50). *)
Module Video.

Record rect := mkRect { rx : Z; ry : Z; rw : Z; rh : Z }.

(** [boxify()].  The source computes in [double]:
    [ratio = (win_w * 0.75) / win_h], [true_w = ratio >= 1 ? win_h / 0.75 :
    win_w], [true_h = ratio >= 1 ? win_h : win_w * 0.75], each converted to
    [int] by truncation.  For window sizes [0 < win_w, win_h < 2^31] these
    are computed exactly here: [win_w * 0.75 = 3*win_w/4] is exact in a
    double; the quotient [ratio] is within half an ulp of [3*win_w/(4*win_h)],
    whose distance to 1, when it is not 1, is at least [1/(4*win_h)], much
    more than that, so [ratio >= 1] iff [4*win_h <= 3*win_w]; and
    [win_h / 0.75 = 4*win_h/3] is a multiple of [1/3] rounded by less than
    [2^-20], so its truncation is [(4*win_h)/3].  The centring divisions are
    [int] divisions. *)
Definition boxify (win_w win_h : Z) : rect :=
  let ratio_ge_1 := 4 * win_h <=? 3 * win_w in
  let true_w := if ratio_ge_1 then (4 * win_h) / 3 else win_w in
  let true_h := if ratio_ge_1 then win_h else (3 * win_w) / 4 in
  mkRect (Z.quot (win_w - true_w) 2) (Z.quot (win_h - true_h) 2) true_w true_h.

End Video.

(** * Properties of the frame handoff *)
Module HandoffFacts.
Import Handoff.

Lemma bufid_eqb_true (a b : bufid) : bufid_eqb a b = true <-> a = b.
Proof. destruct a, b; simpl; split; congruence. Qed.

Lemma bufid_eqb_false (a b : bufid) : a <> b -> bufid_eqb a b = false.
Proof. destruct a, b; simpl; congruence. Qed.

Lemma bufid_swap_ne (a b : bufid) : a <> b -> b <> a.
Proof. congruence. Qed.

(** Flat forms of [draw_frame] and [exit_sdl_thread]. *)
Lemma draw_frame_eq (s : state) :
  draw_frame s =
    if ready_to_draw_new_frame s then
      mkState (render_buffers s) (front_buffer s) (back_buffer s)
        (ready_to_draw_new_frame s) true (pending_sdl_thread_exit s)
        (wake_waiter (sdl s))
        (frame_log s ++ [LockFrame; SetAvail; SwapBuffers; CondSignal; UnlockFrame])
    else
      mkState (render_buffers s) (back_buffer s) (front_buffer s)
        (ready_to_draw_new_frame s) (frame_available s)
        (pending_sdl_thread_exit s) (sdl s)
        (frame_log s ++ [LockFrame; UnlockFrame]).
Proof.
  unfold draw_frame, set_frame_available, swap_handles, cond_signal, set_sdl, log_ev.
  cbn [ready_to_draw_new_frame sdl render_buffers back_buffer front_buffer
       frame_available pending_sdl_thread_exit frame_log].
  destruct (ready_to_draw_new_frame s); [destruct (sdl s)|];
    cbn [wake_waiter ready_to_draw_new_frame sdl render_buffers back_buffer front_buffer
       frame_available pending_sdl_thread_exit frame_log];
    repeat rewrite <- app_assoc; reflexivity.
Qed.

Lemma exit_sdl_thread_eq (s : state) :
  exit_sdl_thread s =
    mkState (render_buffers s) (back_buffer s) (front_buffer s)
      (ready_to_draw_new_frame s) (frame_available s) true
      (wake_waiter (sdl s))
      (frame_log s ++ [LockFrame; SetExit; CondSignal; UnlockFrame]).
Proof.
  unfold exit_sdl_thread, set_pending_exit, cond_signal, set_sdl, log_ev.
  cbn [sdl frame_log].
  destruct (sdl s); cbn [wake_waiter ready_to_draw_new_frame sdl render_buffers back_buffer front_buffer
       frame_available pending_sdl_thread_exit frame_log];
    repeat rewrite <- app_assoc; reflexivity.
Qed.

Lemma inv_init : inv init.
Proof.
  repeat split; simpl; try discriminate.
Qed.

Lemma inv_wait_test (s : state) :
  back_buffer s <> front_buffer s ->
  (frame_available s = true -> ready_to_draw_new_frame s = true) ->
  inv (wait_test s).
Proof.
  intros Hd Ha. unfold wait_test, set_sdl, log_ev.
  destruct (frame_available s) eqn:F, (pending_sdl_thread_exit s) eqn:P;
    simpl; repeat split; simpl; intros; try discriminate; auto;
    try (injection H; intros; subst; auto).
Qed.

Lemma inv_step (s s' : state) (l : label) :
  inv s -> exec_step s l = Some s' -> inv s'.
Proof.
  intros (Hd & Ha & Hw & Hp) E.
  destruct l as [x y c | | | | | q]; simpl in E.
  - unfold put_pixel in E.
    destruct (negb (x <? 256)), (negb (y <? 240)); try discriminate.
    injection E as <-. exact (conj Hd (conj Ha (conj Hw Hp))).
  - injection E as <-. rewrite draw_frame_eq.
    destruct (ready_to_draw_new_frame s) eqn:R; simpl.
    + destruct (sdl s) eqn:S; simpl; repeat split; simpl; intros;
        try discriminate; auto using bufid_swap_ne.
      all: destruct (Hp h eq_refl); discriminate.
    + exact (conj Hd (conj Ha (conj Hw Hp))).
  - injection E as <-. rewrite exit_sdl_thread_eq.
    destruct (sdl s) eqn:S; simpl; repeat split; simpl; intros;
      try discriminate; auto;
      injection H as <-; destruct (Hp _ eq_refl); auto.
  - destruct (sdl s); try discriminate. injection E as <-.
    unfold sdl_wait_enter. apply inv_wait_test; simpl; auto.
  - destruct (sdl s) as [ | [|] | | ]; try discriminate. injection E as <-.
    unfold sdl_wait_wake. apply inv_wait_test; simpl; auto.
  - destruct (sdl s); try discriminate. injection E as <-.
    repeat split; simpl; intros; try discriminate; auto.
Qed.

Lemma inv_run (s s' : state) (ls : list label) :
  inv s -> run s ls = Some s' -> inv s'.
Proof.
  revert s. induction ls as [|l ls IH]; simpl; intros s Hi E.
  - injection E as <-. exact Hi.
  - destruct (exec_step s l) eqn:E1; try discriminate.
    eapply IH; [eapply inv_step; eauto | exact E].
Qed.

Lemma reachable_inv (s : state) : reachable s -> inv s.
Proof.
  intros [ls E]. eapply inv_run; [apply inv_init | exact E].
Qed.

Lemma run_app (s : state) (l1 l2 : list label) :
  run s (l1 ++ l2) = match run s l1 with Some m => run m l2 | None => None end.
Proof.
  revert s. induction l1 as [|l l1 IH]; simpl; intros s; auto.
  destruct (exec_step s l); auto.
Qed.

Lemma reachable_step (s s' : state) (l : label) :
  reachable s -> exec_step s l = Some s' -> reachable s'.
Proof.
  intros [ls E] E1. exists (ls ++ [l]). rewrite run_app, E. simpl. rewrite E1. reflexivity.
Qed.

Lemma reachable_run (s s' : state) (ls : list label) :
  reachable s -> run s ls = Some s' -> reachable s'.
Proof.
  intros [ls0 E] E1. exists (ls0 ++ ls). rewrite run_app, E. exact E1.
Qed.

End HandoffFacts.

(** * Claims on the frame handoff *)
Module HandoffClaims.
Import Handoff HandoffFacts.

(** C1: [draw_frame] with [ready_to_draw_new_frame] set makes the frame
    available, exchanges the two buffer handles (the pixel storage itself is
    left as it is), and signals the condition variable, all between the lock
    and the unlock of [frame_lock]. *)
Theorem draw_frame_ready (s : state) (H : ready_to_draw_new_frame s = true) :
  frame_available (draw_frame s) = true /\
  back_buffer (draw_frame s) = front_buffer s /\
  front_buffer (draw_frame s) = back_buffer s /\
  render_buffers (draw_frame s) = render_buffers s /\
  ready_to_draw_new_frame (draw_frame s) = true /\
  pending_sdl_thread_exit (draw_frame s) = pending_sdl_thread_exit s /\
  frame_log (draw_frame s) =
    frame_log s ++ [LockFrame; SetAvail; SwapBuffers; CondSignal; UnlockFrame] /\
  sdl (draw_frame s) =
    match sdl s with PWaiting _ => PWaiting true | p => p end.
Proof.
  rewrite draw_frame_eq. simpl. rewrite H.
  destruct (sdl s); simpl; repeat split; auto;
    repeat rewrite <- app_assoc; reflexivity.
Qed.

Lemma draw_frame_ready_witness :
  ready_to_draw_new_frame (sdl_wait_enter init) = true /\
  front_buffer (draw_frame (sdl_wait_enter init)) = Buf0 /\
  sdl (draw_frame (sdl_wait_enter init)) = PWaiting true.
Proof.
  split; [reflexivity|].
  destruct (draw_frame_ready (sdl_wait_enter init) eq_refl)
    as (_ & _ & F & _ & _ & _ & _ & S).
  split; [exact F | exact S].
Defined.

(** C2: [draw_frame] with [ready_to_draw_new_frame] clear drops the frame:
    it only takes and releases [frame_lock]; buffers, handles, flags and the
    SDL thread are untouched and nothing is signalled. *)
Theorem draw_frame_dropped (s : state) (H : ready_to_draw_new_frame s = false) :
  draw_frame s =
    mkState (render_buffers s) (back_buffer s) (front_buffer s)
      (ready_to_draw_new_frame s) (frame_available s)
      (pending_sdl_thread_exit s) (sdl s)
      (frame_log s ++ [LockFrame; UnlockFrame]) /\
  ~ In CondSignal [LockFrame; UnlockFrame].
Proof.
  rewrite draw_frame_eq, H.
  split; [reflexivity | simpl; intuition discriminate].
Qed.

Lemma draw_frame_dropped_witness :
  ready_to_draw_new_frame init = false /\
  front_buffer (draw_frame init) = front_buffer init.
Proof.
  split; [reflexivity|].
  rewrite (proj1 (draw_frame_dropped init eq_refl)). reflexivity.
Defined.

(** C6: [put_pixel] asserts [x < 256] and [y < 240]; at [(255, 239)] it
    writes the back buffer at [256*239 + 255], and one past either bound the
    assertion fails. *)
Theorem put_pixel_bounds (s : state) (c : Z) :
  put_pixel 255 239 c s =
    Ret (mkState
      (upd_buf (render_buffers s) (back_buffer s)
         (upd_pix (render_buffers s (back_buffer s)) (256 * 239 + 255) c))
      (back_buffer s) (front_buffer s)
      (ready_to_draw_new_frame s) (frame_available s)
      (pending_sdl_thread_exit s) (sdl s) (frame_log s)) /\
  (forall y, put_pixel 256 y c s = AssertFail) /\
  (forall x, put_pixel x 240 c s = AssertFail).
Proof.
  split; [reflexivity|]. split; intros v; unfold put_pixel; simpl; auto.
  destruct (v <? 256); reflexivity.
Qed.

(** C10: an in-bounds [put_pixel] changes exactly the cell [256*y + x] of
    the back buffer; the rest of it, the front buffer, the handles and the
    flags stay as they were. *)
Theorem put_pixel_one_cell (s : state) (x y c : Z) (R : reachable s)
  (Hx : 0 <= x < 256) (Hy : 0 <= y < 240) :
  exists s', put_pixel x y c s = Ret s' /\
    render_buffers s' (back_buffer s) (256 * y + x) = c /\
    (forall i, i <> 256 * y + x ->
       render_buffers s' (back_buffer s) i = render_buffers s (back_buffer s) i) /\
    render_buffers s' (front_buffer s) = render_buffers s (front_buffer s) /\
    back_buffer s' = back_buffer s /\ front_buffer s' = front_buffer s /\
    frame_available s' = frame_available s /\
    ready_to_draw_new_frame s' = ready_to_draw_new_frame s /\
    pending_sdl_thread_exit s' = pending_sdl_thread_exit s /\
    sdl s' = sdl s /\ frame_log s' = frame_log s.
Proof.
  destruct (reachable_inv s R) as (Hd & _).
  unfold put_pixel.
  replace (x <? 256) with true by (symmetry; apply Z.ltb_lt; lia).
  replace (y <? 240) with true by (symmetry; apply Z.ltb_lt; lia).
  assert (Hi : u32 (256 * y + x) = 256 * y + x).
  { unfold u32. apply Z.mod_small. lia. }
  rewrite Hi. simpl. eexists; split; [reflexivity|].
  unfold upd_buf, upd_pix. simpl.
  assert (Hb : bufid_eqb (back_buffer s) (back_buffer s) = true)
    by (apply bufid_eqb_true; reflexivity).
  rewrite Hb, (bufid_eqb_false _ _ (bufid_swap_ne _ _ Hd)).
  repeat split; auto.
  - rewrite Z.eqb_refl. reflexivity.
  - intros i Hne. apply Z.eqb_neq in Hne. rewrite Hne. reflexivity.
Qed.

Lemma put_pixel_one_cell_witness :
  0 <= 255 < 256 /\ 0 <= 239 < 240 /\
  exists s', put_pixel 255 239 7 init = Ret s' /\
    render_buffers s' Buf0 (256 * 239 + 255) = 7.
Proof.
  split; [lia|]. split; [lia|].
  destruct (put_pixel_one_cell init 255 239 7 (ex_intro _ [] eq_refl)
              ltac:(lia) ltac:(lia)) as (s' & E & C & _).
  exists s'. split; [exact E | exact C].
Defined.

End HandoffClaims.

Module HandoffWait.
Import Handoff HandoffFacts.

Lemma wait_test_blocked (s : state) :
  frame_available s = false -> pending_sdl_thread_exit s = false ->
  wait_test s =
    mkState (render_buffers s) (back_buffer s) (front_buffer s)
      (ready_to_draw_new_frame s) false false (PWaiting false)
      (frame_log s ++ [CondWaitRelease]).
Proof.
  intros F P. unfold wait_test, set_sdl, log_ev. rewrite F, P. reflexivity.
Qed.

Lemma wait_test_exit (s : state) :
  pending_sdl_thread_exit s = true ->
  wait_test s =
    mkState (render_buffers s) (back_buffer s) (front_buffer s)
      (ready_to_draw_new_frame s) (frame_available s) true PExited
      (frame_log s ++ [UnlockFrame]).
Proof.
  intros P. unfold wait_test, set_sdl, log_ev. rewrite P.
  rewrite andb_false_r. reflexivity.
Qed.

Lemma wait_test_frame (s : state) :
  frame_available s = true -> pending_sdl_thread_exit s = false ->
  wait_test s =
    mkState (render_buffers s) (back_buffer s) (front_buffer s)
      false false false (PPresenting (front_buffer s))
      (frame_log s ++ [ClearFlags; UnlockFrame]).
Proof.
  intros F P. unfold wait_test. rewrite F, P. reflexivity.
Qed.

(** C3: the wait phase of [sdl_thread].  On entry (top of the loop) it sets
    [ready_to_draw_new_frame] under [frame_lock]; it stays blocked while no
    frame is available and no exit is pending (also after each wake-up);
    with an exit pending it releases the lock and returns; otherwise it
    clears both flags and picks up the current [front_buffer]. *)
Theorem sdl_wait_phase (s : state) :
  (sdl s = PTop ->
     (frame_available s = false -> pending_sdl_thread_exit s = false ->
        sdl (sdl_wait_enter s) = PWaiting false /\
        ready_to_draw_new_frame (sdl_wait_enter s) = true /\
        frame_log (sdl_wait_enter s) =
          frame_log s ++ [LockFrame; SetReady; CondWaitRelease]) /\
     (pending_sdl_thread_exit s = true ->
        sdl (sdl_wait_enter s) = PExited /\
        ready_to_draw_new_frame (sdl_wait_enter s) = true /\
        frame_available (sdl_wait_enter s) = frame_available s /\
        frame_log (sdl_wait_enter s) =
          frame_log s ++ [LockFrame; SetReady; UnlockFrame]) /\
     (frame_available s = true -> pending_sdl_thread_exit s = false ->
        sdl (sdl_wait_enter s) = PPresenting (front_buffer s) /\
        frame_available (sdl_wait_enter s) = false /\
        ready_to_draw_new_frame (sdl_wait_enter s) = false /\
        front_buffer (sdl_wait_enter s) = front_buffer s /\
        back_buffer (sdl_wait_enter s) = back_buffer s /\
        render_buffers (sdl_wait_enter s) = render_buffers s /\
        frame_log (sdl_wait_enter s) =
          frame_log s ++ [LockFrame; SetReady; ClearFlags; UnlockFrame])) /\
  (sdl s = PWaiting true ->
     (frame_available s = false -> pending_sdl_thread_exit s = false ->
        sdl (sdl_wait_wake s) = PWaiting false /\
        ready_to_draw_new_frame (sdl_wait_wake s) = ready_to_draw_new_frame s /\
        frame_log (sdl_wait_wake s) = frame_log s ++ [LockFrame; CondWaitRelease]) /\
     (pending_sdl_thread_exit s = true ->
        sdl (sdl_wait_wake s) = PExited /\
        ready_to_draw_new_frame (sdl_wait_wake s) = ready_to_draw_new_frame s /\
        frame_available (sdl_wait_wake s) = frame_available s /\
        frame_log (sdl_wait_wake s) = frame_log s ++ [LockFrame; UnlockFrame]) /\
     (frame_available s = true -> pending_sdl_thread_exit s = false ->
        sdl (sdl_wait_wake s) = PPresenting (front_buffer s) /\
        frame_available (sdl_wait_wake s) = false /\
        ready_to_draw_new_frame (sdl_wait_wake s) = false /\
        front_buffer (sdl_wait_wake s) = front_buffer s /\
        back_buffer (sdl_wait_wake s) = back_buffer s /\
        render_buffers (sdl_wait_wake s) = render_buffers s /\
        frame_log (sdl_wait_wake s) = frame_log s ++ [LockFrame; ClearFlags; UnlockFrame])).
Proof.
  unfold sdl_wait_enter, sdl_wait_wake, log_ev.
  split; intros _; repeat split; intros;
    first [ rewrite wait_test_blocked by assumption
          | rewrite wait_test_exit by assumption
          | rewrite wait_test_frame by assumption ];
    simpl; auto; repeat rewrite <- app_assoc; reflexivity.
Qed.

Lemma sdl_wait_phase_witness :
  sdl init = PTop /\ frame_available init = false /\
  pending_sdl_thread_exit init = false /\
  sdl (sdl_wait_enter init) = PWaiting false.
Proof.
  split; [reflexivity|]. split; [reflexivity|]. split; [reflexivity|].
  exact (proj1 (proj1 (proj1 (sdl_wait_phase init) eq_refl) eq_refl eq_refl)).
Defined.

End HandoffWait.

Module HandoffFlags.
Import Handoff HandoffFacts HandoffWait.

Lemma wait_test_avail (s : state) :
  (frame_available (wait_test s) = true -> frame_available s = true) /\
  (frame_available s = true -> frame_available (wait_test s) = false ->
     sdl (wait_test s) = PPresenting (front_buffer s)) /\
  pending_sdl_thread_exit (wait_test s) = pending_sdl_thread_exit s.
Proof.
  destruct (frame_available s) eqn:F, (pending_sdl_thread_exit s) eqn:P.
  all: first [ rewrite wait_test_blocked by assumption
             | rewrite wait_test_exit by assumption
             | rewrite wait_test_frame by assumption ]; simpl.
  all: repeat split; intros; try discriminate; try congruence; auto.
Qed.

(** C4: across every step of a reachable state, [frame_available] turns
    true only through [draw_frame] run while [ready_to_draw_new_frame] is
    set, and turns false only through the SDL thread's wait phase when it
    picks the frame up. *)
Theorem frame_available_transitions (s s' : state) (l : label)
  (R : reachable s) (E : exec_step s l = Some s') :
  (frame_available s = false -> frame_available s' = true ->
     l = LDrawFrame /\ ready_to_draw_new_frame s = true) /\
  (frame_available s = true -> frame_available s' = false ->
     (l = LWaitEnter \/ l = LWaitWake) /\ sdl s' = PPresenting (front_buffer s)).
Proof.
  destruct l as [x y c | | | | | q]; simpl in E.
  - unfold put_pixel in E.
    destruct (negb (x <? 256)), (negb (y <? 240)); try discriminate.
    injection E as <-. simpl. split; intros F1 F2; congruence.
  - injection E as <-.
    rewrite draw_frame_eq. simpl.
    destruct (ready_to_draw_new_frame s) eqn:Rd.
    + destruct (sdl s); simpl; split; intros F1 F2; auto; congruence.
    + simpl. split; intros F1 F2; congruence.
  - injection E as <-. rewrite exit_sdl_thread_eq.
    destruct (sdl s); simpl; split; intros F1 F2; congruence.
  - destruct (sdl s); try discriminate. injection E as <-.
    unfold sdl_wait_enter, log_ev.
    destruct (wait_test_avail
      (mkState (render_buffers s) (back_buffer s) (front_buffer s) true
         (frame_available s) (pending_sdl_thread_exit s) (sdl s)
         (frame_log s ++ [LockFrame; SetReady]))) as (A1 & A2 & _).
    simpl in A1, A2. split; intros F1 F2.
    + apply A1 in F2. congruence.
    + split; auto.
  - destruct (sdl s) as [ | [|] | | ]; try discriminate. injection E as <-.
    unfold sdl_wait_wake, log_ev.
    destruct (wait_test_avail
      (mkState (render_buffers s) (back_buffer s) (front_buffer s)
         (ready_to_draw_new_frame s) (frame_available s)
         (pending_sdl_thread_exit s) (sdl s) (frame_log s ++ [LockFrame])))
      as (A1 & A2 & _).
    simpl in A1, A2. split; intros F1 F2.
    + apply A1 in F2. congruence.
    + split; auto.
  - destruct (sdl s); try discriminate. injection E as <-. simpl.
    split; intros F1 F2; congruence.
Qed.

Lemma frame_available_transitions_witness :
  reachable (sdl_wait_enter init) /\
  exec_step (sdl_wait_enter init) LDrawFrame = Some (draw_frame (sdl_wait_enter init)) /\
  ready_to_draw_new_frame (sdl_wait_enter init) = true.
Proof.
  assert (R : reachable (sdl_wait_enter init)) by (exists [LWaitEnter]; reflexivity).
  split; [exact R|]. split; [reflexivity|].
  exact (proj2 (proj1 (frame_available_transitions _ _ LDrawFrame R eq_refl)
                  eq_refl eq_refl)).
Defined.

Lemma pending_step (s s' : state) (l : label) :
  pending_sdl_thread_exit s = true -> exec_step s l = Some s' ->
  pending_sdl_thread_exit s' = true.
Proof.
  intros P E. destruct l as [x y c | | | | | q]; simpl in E.
  - unfold put_pixel in E.
    destruct (negb (x <? 256)), (negb (y <? 240)); try discriminate.
    injection E as <-. exact P.
  - injection E as <-. rewrite draw_frame_eq.
    destruct (ready_to_draw_new_frame s); simpl; [destruct (sdl s)|]; exact P.
  - injection E as <-. rewrite exit_sdl_thread_eq.
    destruct (sdl s); reflexivity.
  - destruct (sdl s); try discriminate. injection E as <-.
    unfold sdl_wait_enter. rewrite (proj2 (proj2 (wait_test_avail _))). exact P.
  - destruct (sdl s) as [ | [|] | | ]; try discriminate. injection E as <-.
    unfold sdl_wait_wake. rewrite (proj2 (proj2 (wait_test_avail _))). exact P.
  - destruct (sdl s); try discriminate. injection E as <-. simpl.
    rewrite P. reflexivity.
Qed.

Lemma pending_run (s s' : state) (ls : list label) :
  pending_sdl_thread_exit s = true -> run s ls = Some s' ->
  pending_sdl_thread_exit s' = true.
Proof.
  revert s. induction ls as [|l ls IH]; simpl; intros s P E.
  - injection E as <-. exact P.
  - destruct (exec_step s l) eqn:E1; try discriminate.
    eapply IH; [eapply pending_step; eauto | exact E].
Qed.

(** C9: [exit_sdl_thread] sets the exit flag and signals
    [frame_available_cond], under [frame_lock]; an SDL thread blocked in the
    wait then wakes and returns without any further [draw_frame], and from
    then on the SDL thread is never blocked in the wait, and once returned it
    takes no step. *)
Theorem exit_sdl_thread_wakes (s : state) :
  pending_sdl_thread_exit (exit_sdl_thread s) = true /\
  frame_log (exit_sdl_thread s) =
    frame_log s ++ [LockFrame; SetExit; CondSignal; UnlockFrame] /\
  (forall b, sdl s = PWaiting b ->
     exists s', exec_step (exit_sdl_thread s) LWaitWake = Some s' /\
                sdl s' = PExited) /\
  (reachable s -> forall ls s', run (exit_sdl_thread s) ls = Some s' ->
     sdl s' <> PWaiting false /\
     (sdl s' = PExited ->
        exec_step s' LWaitEnter = None /\ exec_step s' LWaitWake = None /\
        forall q, exec_step s' (LPresent q) = None)).
Proof.
  split; [rewrite exit_sdl_thread_eq;
          destruct (sdl s); reflexivity|].
  split; [rewrite exit_sdl_thread_eq;
          destruct (sdl s); simpl; repeat rewrite <- app_assoc; reflexivity|].
  split.
  - intros b S.
    rewrite exit_sdl_thread_eq. simpl. rewrite S.
    eexists. split; [reflexivity|].
    unfold sdl_wait_wake. rewrite wait_test_exit by reflexivity. reflexivity.
  - intros R ls s' E.
    assert (R' : reachable s').
    { eapply reachable_run; [|exact E].
      apply (reachable_step s _ LExitSdl R). reflexivity. }
    assert (P : pending_sdl_thread_exit s' = true).
    { eapply pending_run; [|exact E].
      rewrite exit_sdl_thread_eq.
      destruct (sdl s); reflexivity. }
    destruct (reachable_inv s' R') as (_ & _ & Hw & _).
    split.
    + intros S. rewrite (Hw S) in P. discriminate.
    + intros S. simpl. rewrite S. auto.
Qed.

Lemma exit_sdl_thread_wakes_witness :
  sdl (sdl_wait_enter init) = PWaiting false /\
  exists s', exec_step (exit_sdl_thread (sdl_wait_enter init)) LWaitWake = Some s' /\
             sdl s' = PExited.
Proof.
  split; [reflexivity|].
  exact (proj1 (proj2 (proj2 (exit_sdl_thread_wakes (sdl_wait_enter init))))
           false eq_refl).
Defined.

End HandoffFlags.

Module HandoffDrop.
Import Handoff HandoffFacts HandoffWait HandoffFlags.










End HandoffDrop.

(** * Claims on the keyboard snapshot *)
Module InputClaims.
Import Input.

Lemma Forall_get (P : Z -> Prop) (a : list Z) (i : nat) :
  Forall P a -> (i < length a)%nat -> P (get a i).
Proof.
  intros HF Hi. unfold get. rewrite Forall_forall in HF.
  apply HF, nth_In, Hi.
Qed.

(** C7: on 0/1-valued snapshots, [KEY_PRESSED(i)] is non-zero exactly when
    key [i] is held now and was not in the last cycle, [KEY_RELEASED(i)]
    exactly when it is not held now and was; with last cycle [1,0,1] and
    now [1,1,0], index 1 is pressed, index 2 released, index 0 neither. *)
Theorem key_edges (keys keys_lf : list Z) (i : nat)
  (Hlen : length keys = length keys_lf) (Hi : (i < length keys)%nat)
  (Hk : Forall (fun v => v = 0 \/ v = 1) keys)
  (Hl : Forall (fun v => v = 0 \/ v = 1) keys_lf) :
  (KEY_PRESSED keys keys_lf i <> 0 <-> get keys i = 1 /\ get keys_lf i = 0) /\
  (KEY_RELEASED keys keys_lf i <> 0 <-> get keys i = 0 /\ get keys_lf i = 1) /\
  (KEY_PRESSED [1; 1; 0] [1; 0; 1] 1 <> 0 /\
   KEY_RELEASED [1; 1; 0] [1; 0; 1] 1 = 0 /\
   KEY_PRESSED [1; 1; 0] [1; 0; 1] 2 = 0 /\
   KEY_RELEASED [1; 1; 0] [1; 0; 1] 2 <> 0 /\
   KEY_PRESSED [1; 1; 0] [1; 0; 1] 0 = 0 /\
   KEY_RELEASED [1; 1; 0] [1; 0; 1] 0 = 0).
Proof.
  assert (Hi' : (i < length keys_lf)%nat) by (rewrite <- Hlen; exact Hi).
  destruct (Forall_get _ _ _ Hk Hi) as [K|K];
  destruct (Forall_get _ _ _ Hl Hi') as [L|L];
  unfold KEY_PRESSED, KEY_RELEASED, c_not; rewrite K, L; simpl;
  (split; [|split]); try (split; intros; try lia; discriminate);
  repeat split; discriminate.
Qed.

Lemma key_edges_witness :
  KEY_PRESSED [1; 1; 0] [1; 0; 1] 1 <> 0 /\
  (KEY_PRESSED [1; 1; 0] [1; 0; 1] 1 <> 0 <->
     get [1; 1; 0] 1 = 1 /\ get [1; 0; 1] 1 = 0).
Proof.
  destruct (key_edges [1; 1; 0] [1; 0; 1] 1 eq_refl ltac:(simpl; lia)
              ltac:(repeat (apply Forall_cons; [lia|]); apply Forall_nil)
              ltac:(repeat (apply Forall_cons; [lia|]); apply Forall_nil))
    as (P & _ & X & _).
  split; [exact X | exact P].
Defined.

End InputClaims.

Module InputCommit.
Import Input.

(** C8 (code bug): [handle_ui_keys] releases [event_lock] (line 173) before
    copying [keys] into [keys_lf] (line 174), so the commit is not in the
    critical section of the reads.  In the schedule below the SDL thread's
    [process_events] takes the lock between the unlock and the [memcpy] and
    refreshes [keys] with Left-Alt+D held; the commit (made with no thread
    holding [event_lock]) records D as already held, so the next cycle never
    sees the press and the debugger is not toggled, while the same press
    refreshed before the cycle takes the lock does toggle it. *)
Theorem commit_outside_lock :
  exists s1 s2 s3,
    irun iinit [HkLock; HkBody; HkUnlock;
                ProcessEvents (held_keys [SDL_SCANCODE_LALT; SDL_SCANCODE_D]);
                HkCommit] = Some s1 /\
    last (in_log s1) (Emu, EvRead) = (Emu, EvCommit None) /\
    get (keys_lf s1) SDL_SCANCODE_D = 1 /\
    irun s1 handle_ui_keys = Some s2 /\
    get (keys s2) SDL_SCANCODE_LALT = 1 /\ get (keys s2) SDL_SCANCODE_D = 1 /\
    KEY_PRESSED (keys s2) (keys_lf s1) SDL_SCANCODE_D = 0 /\
    show_debugger s2 = false /\
    irun iinit (ProcessEvents (held_keys [SDL_SCANCODE_LALT; SDL_SCANCODE_D])
                :: handle_ui_keys) = Some s3 /\
    show_debugger s3 = true.
Proof.
  exists (match irun iinit
             [HkLock; HkBody; HkUnlock;
              ProcessEvents (held_keys [SDL_SCANCODE_LALT; SDL_SCANCODE_D]);
              HkCommit] with Some t => t | None => iinit end).
  exists (match irun
             (match irun iinit
                [HkLock; HkBody; HkUnlock;
                 ProcessEvents (held_keys [SDL_SCANCODE_LALT; SDL_SCANCODE_D]);
                 HkCommit] with Some t => t | None => iinit end)
             handle_ui_keys with Some t => t | None => iinit end).
  exists (match irun iinit
             (ProcessEvents (held_keys [SDL_SCANCODE_LALT; SDL_SCANCODE_D])
              :: handle_ui_keys) with Some t => t | None => iinit end).
  do 9 (split; [vm_compute; reflexivity|]). vm_compute; reflexivity.
Qed.

End InputCommit.

(** * Properties of the debug console *)
Module DebugFacts.
Import Debug.

#[local] Arguments upd : simpl never.
#[local] Arguments shift_rows : simpl never.

Ltac zbool_hyps :=
  repeat match goal with
  | H : (_ && _) = true |- _ => apply andb_true_iff in H; destruct H
  | H : (_ && _) = false |- _ => apply andb_false_iff in H; destruct H
  | H : (_ || _) = true |- _ => apply orb_true_iff in H; destruct H
  | H : (_ || _) = false |- _ => apply orb_false_iff in H; destruct H
  | H : (_ <=? _) = true |- _ => apply Z.leb_le in H
  | H : (_ <=? _) = false |- _ => apply Z.leb_gt in H
  | H : (_ <? _) = true |- _ => apply Z.ltb_lt in H
  | H : (_ <? _) = false |- _ => apply Z.ltb_ge in H
  | H : (_ =? _) = true |- _ => apply Z.eqb_eq in H
  | H : (_ =? _) = false |- _ => apply Z.eqb_neq in H
  end.

Ltac split_ifs :=
  repeat match goal with
  | |- context [if ?b then _ else _] => destruct b eqn:?; cbn
  end.


Lemma u8_small (v : Z) : 0 <= v < 256 -> u8 v = v.
Proof. intros H. unfold u8. apply Z.mod_small. exact H. Qed.

Lemma puts_char_bounds (c : Z) (d : dbg) :
  0 <= debug_cur_x d < 128 -> 0 <= debug_cur_y d < 60 ->
  exists d', puts_char c d = Some d' /\
    0 <= debug_cur_x d' < 128 /\ 0 <= debug_cur_y d' < 60.
Proof.
  destruct d as [ct cl co x y]; cbn. intros Hx Hy.
  assert (Ux : u8 (x + 1) = x + 1) by (apply u8_small; lia).
  assert (Uy : u8 (y + 1) = y + 1) by (apply u8_small; lia).
  unfold puts_char, set_cursor, set_color, sdldbg_scroll; cbn.
  rewrite ?Ux, ?Uy.
  split_ifs; cbn in *; rewrite ?Ux, ?Uy in *; zbool_hyps; try lia;
    eexists; (split; [reflexivity|]); cbn; lia.
Qed.

Lemma puts_char_row (c : Z) (d : dbg) :
  32 <= c < 128 -> 0 <= debug_cur_x d -> debug_cur_x d + 1 < 128 ->
  0 <= debug_cur_y d < 60 ->
  puts_char c d =
    Some (mkDbg (upd (debug_contents d) (debug_cur_y d * 128 + debug_cur_x d) c)
            (upd (debug_colors d) (debug_cur_y d * 128 + debug_cur_x d)
               (debug_cur_color d))
            (debug_cur_color d) (debug_cur_x d + 1) (debug_cur_y d)).
Proof.
  destruct d as [ct cl co x y]; cbn. intros Hc Hx Hx1 Hy.
  assert (Ux : u8 (x + 1) = x + 1) by (apply u8_small; lia).
  unfold puts_char, set_cursor, set_color, sdldbg_scroll; cbn.
  rewrite ?Ux.
  split_ifs; cbn in *; rewrite ?Ux in *; zbool_hyps; try lia; reflexivity.
Qed.

Lemma cells_ok_upd (a : Z -> Z) (i c : Z) :
  cells_ok a -> 32 <= c < 128 -> cells_ok (upd a i c).
Proof.
  intros Ha Hc j. unfold upd. destruct (j =? i); auto.
Qed.

Lemma cells_ok_shift (a : Z -> Z) : cells_ok a -> cells_ok (shift_rows a).
Proof.
  intros Ha j. unfold shift_rows. destruct (_ && _); auto.
Qed.

Lemma puts_char_cells (c : Z) (d d' : dbg) :
  cells_ok (debug_contents d) -> puts_char c d = Some d' ->
  cells_ok (debug_contents d').
Proof.
  destruct d as [ct cl co x y]; cbn. intros Hok.
  unfold puts_char, set_cursor, set_color, sdldbg_scroll; cbn.
  split_ifs; intros E; try discriminate; injection E as <-; cbn;
    zbool_hyps;
    repeat first [ apply cells_ok_shift | apply cells_ok_upd ]; auto; lia.
Qed.

Lemma zseq_in (v : Z) (n : nat) : In v (zseq n) -> 0 <= v < Z.of_nat n.
Proof.
  unfold zseq. intros H. apply in_map_iff in H as (k & <- & Hk).
  apply in_seq in Hk. lia.
Qed.

(** [sdldbg_puts] started with the cursor on the screen keeps it on the
    screen, and never stores outside [debug_contents] / [debug_colors]:
    whatever the bytes, the call completes. *)
Theorem sdldbg_puts_in_bounds (s : list Z) (d : dbg) :
  0 <= debug_cur_x d < 128 -> 0 <= debug_cur_y d < 60 ->
  exists d', sdldbg_puts s d = Some d' /\
    0 <= debug_cur_x d' < 128 /\ 0 <= debug_cur_y d' < 60.
Proof.
  revert d. induction s as [|c s IH]; intros d Hx Hy; cbn [sdldbg_puts].
  - exists d. auto.
  - destruct (c =? 0); [exists d; auto|].
    destruct (puts_char_bounds c d Hx Hy) as (d1 & E & Hx1 & Hy1).
    rewrite E. apply IH; assumption.
Qed.

Lemma sdldbg_puts_in_bounds_witness :
  exists d', sdldbg_puts [72; 105; 10; 250; 33; 0; 7] dbg_init = Some d' /\
    0 <= debug_cur_x d' < 128 /\ 0 <= debug_cur_y d' < 60.
Proof.
  apply sdldbg_puts_in_bounds; cbn; lia.
Defined.

(** [mvsdldbg_puts] stores its [char] row unchecked: with a row that is
    60 or more once taken as a [Uint8] (a negative [char] included) and a
    string whose first byte is printable, that first byte is stored past
    the end of the arrays. *)
Theorem mvsdldbg_puts_off_screen (c : Z) (s : list Z) (x y : Z) (d : dbg) :
  32 <= c < 128 -> 60 <= u8 y ->
  mvsdldbg_puts (c :: s) x y d = None.
Proof.
  intros Hc Hy.
  assert (Hx : 0 <= u8 x < 256) by (unfold u8; apply Z.mod_pos_bound; lia).
  unfold mvsdldbg_puts, sdldbg_puts, puts_char, set_cursor; cbn.
  split_ifs; zbool_hyps; try lia; reflexivity.
Qed.

Lemma mvsdldbg_puts_off_screen_witness :
  mvsdldbg_puts [65; 66] 3 (-1) dbg_init = None.
Proof.
  apply mvsdldbg_puts_off_screen; [lia | unfold u8; cbn; lia].
Defined.

(** A run of [n] printable bytes written from column [x] with
    [x + n < 128] (the cursor does not reach the end of the row, so there is
    no wrap) is stored in consecutive cells from the cursor, each with the
    current colour; every other cell is left as it was, and the cursor ends
    just after the run, on the same row. *)
Theorem sdldbg_puts_row (cs : list Z) (d : dbg) :
  Forall (fun c => 32 <= c < 128) cs ->
  0 <= debug_cur_x d -> debug_cur_x d + Z.of_nat (length cs) < 128 ->
  0 <= debug_cur_y d < 60 ->
  exists d', sdldbg_puts cs d = Some d' /\
    debug_cur_x d' = debug_cur_x d + Z.of_nat (length cs) /\
    debug_cur_y d' = debug_cur_y d /\
    debug_cur_color d' = debug_cur_color d /\
    forall j,
      let i := debug_cur_y d * 128 + debug_cur_x d in
      if (i <=? j) && (j <? i + Z.of_nat (length cs)) then
        debug_contents d' j = nth (Z.to_nat (j - i)) cs 0 /\
        debug_colors d' j = debug_cur_color d
      else
        debug_contents d' j = debug_contents d j /\
        debug_colors d' j = debug_colors d j.
Proof.
  revert d. induction cs as [|c cs IH]; intros d Hall Hx Hlen Hy.
  - exists d. cbn [sdldbg_puts length]. repeat split; try lia.
    intros j; cbv zeta.
    destruct ((_ <=? j) && _) eqn:B; zbool_hyps; try lia; auto.
  - inversion Hall as [|c' cs' Hc Hcs]; subst c' cs'.
    destruct d as [ct cl co x y]; cbn [debug_cur_x debug_cur_y debug_cur_color
      debug_contents debug_colors length] in *.
    cbn [sdldbg_puts].
    replace (c =? 0) with false by (symmetry; apply Z.eqb_neq; lia).
    rewrite puts_char_row by (cbn; lia).
    cbn [debug_cur_x debug_cur_y debug_cur_color debug_contents debug_colors].
    destruct (IH (mkDbg (upd ct (y * 128 + x) c) (upd cl (y * 128 + x) co) co (x + 1) y)
                Hcs ltac:(cbn; lia) ltac:(cbn; lia) ltac:(cbn; lia))
      as (d' & E & Ex & Ey & Ec & Hj).
    cbn [debug_cur_x debug_cur_y debug_cur_color debug_contents debug_colors] in Ex, Ey, Ec, Hj.
    exists d'. rewrite E. repeat split; try lia.
    intros j. specialize (Hj j). cbv zeta in Hj |- *.
    revert Hj.
    destruct ((y * 128 + (x + 1) <=? j) && (j <? y * 128 + (x + 1) + Z.of_nat (length cs)))
      eqn:B1;
    destruct ((y * 128 + x <=? j) && (j <? y * 128 + x + Z.of_nat (S (length cs))))
      eqn:B2;
    zbool_hyps; try lia; intros [Hc1 Hc2]; rewrite Hc1, Hc2.
    + replace (Z.to_nat (j - (y * 128 + x))) with (S (Z.to_nat (j - (y * 128 + (x + 1)))))
        by lia.
      auto.
    + unfold upd. replace j with (y * 128 + x) by lia. rewrite Z.eqb_refl.
      replace (y * 128 + x - (y * 128 + x)) with 0 by lia. auto.
    + unfold upd. replace (j =? y * 128 + x) with false by (symmetry; apply Z.eqb_neq; lia).
      auto.
    + unfold upd. replace (j =? y * 128 + x) with false by (symmetry; apply Z.eqb_neq; lia).
      auto.
Qed.

Lemma sdldbg_puts_row_witness :
  exists d', sdldbg_puts [72; 105] (set_cursor 10 3 dbg_init) = Some d' /\
    debug_cur_x d' = 10 + 2 /\ debug_cur_y d' = 3 /\ debug_cur_color d' = 0 /\
    forall j,
      if (3 * 128 + 10 <=? j) && (j <? 3 * 128 + 10 + 2) then
        debug_contents d' j = nth (Z.to_nat (j - (3 * 128 + 10))) [72; 105] 0 /\
        debug_colors d' j = 0
      else debug_contents d' j = 0 /\ debug_colors d' j = 0.
Proof.
  apply (sdldbg_puts_row [72; 105] (set_cursor 10 3 dbg_init)); cbn.
  - repeat constructor; lia.
  - lia.
  - lia.
  - lia.
Defined.



(** With the cursor on the 128 x 60 grid, a byte other than NUL, a
    printable one and a newline stores nothing and leaves the cursor alone;
    one in [240..255] selects colour [c - 240] for what follows. *)
Theorem control_byte_no_output (c : Z) (cs : list Z) (d : dbg) :
  0 < c < 256 -> ~ (32 <= c < 128) -> c <> 10 -> c <> 13 ->
  0 <= debug_cur_x d < 128 -> 0 <= debug_cur_y d < 60 ->
  sdldbg_puts (c :: cs) d =
    sdldbg_puts cs (if 240 <=? c then set_color (c - 240) d else d).
Proof.
  intros Hc Hp H10 H13. destruct d as [ct cl co x y]; cbn. intros Hx Hy.
  replace (c =? 0) with false by (symmetry; apply Z.eqb_neq; lia).
  assert (Uc : u8 (c - 240) = c - 240 \/ c < 240)
    by (destruct (Z.lt_ge_cases c 240); [right | left; apply u8_small]; lia).
  unfold puts_char, set_cursor, set_color, sdldbg_scroll; cbn.
  split_ifs; cbn in *; zbool_hyps; try lia;
    destruct Uc as [Uc | Uc]; try lia; rewrite ?Uc; reflexivity.
Qed.

Lemma control_byte_no_output_witness :
  sdldbg_puts [243; 65] dbg_init = sdldbg_puts [65] (set_color 3 dbg_init).
Proof.
  apply (control_byte_no_output 243 [65] dbg_init); cbn; lia.
Defined.

(** Only empty cells and printable bytes ever get into [debug_contents]:
    the zeroed storage has the property and [sdldbg_puts] keeps it. *)
Theorem sdldbg_puts_cells (s : list Z) (d d' : dbg) :
  cells_ok (debug_contents d) -> sdldbg_puts s d = Some d' ->
  cells_ok (debug_contents d').
Proof.
  revert d. induction s as [|c s IH]; intros d Hok E; cbn [sdldbg_puts] in E.
  - injection E as <-. exact Hok.
  - destruct (c =? 0); [injection E as <-; exact Hok|].
    destruct (puts_char c d) as [d1|] eqn:E1; [|discriminate].
    apply (IH d1); [eapply puts_char_cells; eauto | exact E].
Qed.

Lemma sdldbg_puts_cells_witness :
  cells_ok (debug_contents
    (match sdldbg_puts [72; 10; 245; 33] (set_cursor 4 59 dbg_init) with
     | Some d' => d'
     | None => dbg_init
     end)).
Proof.
  apply (sdldbg_puts_cells [72; 10; 245; 33] (set_cursor 4 59 dbg_init)).
  - intros j. left. reflexivity.
  - reflexivity.
Defined.

(** With the cells as [sdldbg_puts] leaves them, every glyph the debugger
    overlay copies comes from the 16 x 6 grid of 5 x 8 glyphs at the top left
    of the font image (80 x 48 pixels), and lands inside the 640 x 480
    rectangle centred in the window. *)
Theorem overlay_glyphs_in_font (contents : Z -> Z) (w h : Z) :
  cells_ok contents ->
  forall cx cy X Y, In (cx, cy, X, Y) (overlay contents w h) ->
    0 <= cx /\ cx + 5 <= 80 /\ 0 <= cy /\ cy + 8 <= 48 /\
    Z.quot w 2 - 320 <= X /\ X + 5 <= Z.quot w 2 - 320 + 640 /\
    Z.quot h 2 - 240 <= Y /\ Y + 8 <= Z.quot h 2 - 240 + 480.
Proof.
  intros Hok cx cy X Y Hin. unfold overlay in Hin.
  apply in_flat_map in Hin as (iy & Hiy & Hin).
  apply in_flat_map in Hin as (ix & Hix & Hin).
  apply zseq_in in Hiy, Hix.
  destruct (32 <=? contents (iy * 128 + ix)) eqn:B; [|destruct Hin].
  destruct Hin as [Heq | []]. injection Heq as <- <- <- <-.
  zbool_hyps.
  destruct (Hok (iy * 128 + ix)) as [Z0 | Hc]; [lia|].
  rewrite Z.rem_mod_nonneg, Z.quot_div_nonneg by lia.
  pose proof (Z.div_mod (contents (iy * 128 + ix) - 32) 16).
  pose proof (Z.mod_pos_bound (contents (iy * 128 + ix) - 32) 16).
  cbn in Hiy, Hix. lia.
Qed.

Lemma overlay_glyphs_in_font_witness :
  0 <= 5 /\ 5 + 5 <= 80 /\ 0 <= 16 /\ 16 + 8 <= 48 /\
  Z.quot 640 2 - 320 <= 5 /\ 5 + 5 <= Z.quot 640 2 - 320 + 640 /\
  Z.quot 480 2 - 240 <= 0 /\ 0 + 8 <= Z.quot 480 2 - 240 + 480.
Proof.
  apply (overlay_glyphs_in_font (upd (fun _ => 0) 1 65) 640 480).
  - intros j. unfold upd. destruct (j =? 1); [right | left]; lia.
  - vm_compute. auto.
Defined.

End DebugFacts.

(** * Further properties of the frame handoff *)
Module HandoffExtra.
Import Handoff HandoffFacts HandoffWait.

Lemma wait_test_waiting_ready (s : state) (w : bool) :
  sdl (wait_test s) = PWaiting w ->
  ready_to_draw_new_frame (wait_test s) = ready_to_draw_new_frame s.
Proof.
  unfold wait_test, set_sdl, log_ev.
  destruct (frame_available s), (pending_sdl_thread_exit s); simpl; intros H;
    try discriminate; reflexivity.
Qed.

Lemma waiting_ready_step (s s' : state) (l : label) :
  (forall w, sdl s = PWaiting w -> ready_to_draw_new_frame s = true) ->
  exec_step s l = Some s' ->
  forall w, sdl s' = PWaiting w -> ready_to_draw_new_frame s' = true.
Proof.
  intros Hw E.
  destruct l as [x y c | | | | | q]; simpl in E.
  - unfold put_pixel in E.
    destruct (negb (x <? 256)), (negb (y <? 240)); try discriminate.
    injection E as <-. exact Hw.
  - injection E as <-. rewrite draw_frame_eq. intros w.
    destruct (ready_to_draw_new_frame s) eqn:R; simpl; intros S; [reflexivity|].
    exact (Hw w S).
  - injection E as <-. rewrite exit_sdl_thread_eq. simpl. intros w S.
    destruct (sdl s) eqn:S0; simpl in S; try discriminate. exact (Hw _ eq_refl).
  - destruct (sdl s); try discriminate. injection E as <-.
    intros w S. unfold sdl_wait_enter in *.
    rewrite (wait_test_waiting_ready _ w S). reflexivity.
  - destruct (sdl s) as [ | [|] | | ] eqn:S0; try discriminate. injection E as <-.
    intros w S. unfold sdl_wait_wake in *.
    rewrite (wait_test_waiting_ready _ w S). unfold log_ev; simpl.
    exact (Hw true eq_refl).
  - destruct (sdl s); try discriminate. injection E as <-.
    intros w S. simpl in S. discriminate.
Qed.

Lemma waiting_ready_run (s s' : state) (ls : list label) :
  (forall w, sdl s = PWaiting w -> ready_to_draw_new_frame s = true) ->
  run s ls = Some s' ->
  forall w, sdl s' = PWaiting w -> ready_to_draw_new_frame s' = true.
Proof.
  revert s. induction ls as [|l ls IH]; simpl; intros s Hw E.
  - injection E as <-. exact Hw.
  - destruct (exec_step s l) eqn:E1; try discriminate.
    eapply IH; [eapply waiting_ready_step; eauto | exact E].
Qed.

Lemma reachable_waiting_ready (s : state) (w : bool) :
  reachable s -> sdl s = PWaiting w -> ready_to_draw_new_frame s = true.
Proof.
  intros [ls E]. eapply waiting_ready_run; [|exact E].
  intros w' S. simpl in S. discriminate.
Qed.

(** While the SDL thread is blocked in the wait, [ready_to_draw_new_frame]
    is set, so the next [draw_frame] is never dropped: the SDL thread wakes
    up and picks up exactly the buffer the emulation thread has just
    filled, and the emulation thread goes on drawing into the buffer shown
    before. *)
Theorem publish_while_waiting (s : state) (w : bool)
  (R : reachable s) (S : sdl s = PWaiting w)
  (P : pending_sdl_thread_exit s = false) :
  exists s', run s [LDrawFrame; LWaitWake] = Some s' /\
    sdl s' = PPresenting (back_buffer s) /\
    back_buffer s' = front_buffer s /\ front_buffer s' = back_buffer s /\
    render_buffers s' = render_buffers s /\
    frame_available s' = false /\ ready_to_draw_new_frame s' = false.
Proof.
  pose proof (reachable_waiting_ready s w R S) as Rd.
  change (run s [LDrawFrame; LWaitWake]) with (run (draw_frame s) [LWaitWake]).
  rewrite draw_frame_eq, Rd, S.
  cbn [run exec_step sdl wake_waiter].
  unfold sdl_wait_wake, log_ev.
  rewrite wait_test_frame by first [reflexivity | exact P].
  eexists. split; [reflexivity|].
  cbn. repeat split.
Qed.

Lemma publish_while_waiting_witness :
  exists s', run (sdl_wait_enter init) [LDrawFrame; LWaitWake] = Some s' /\
    sdl s' = PPresenting Buf0.
Proof.
  destruct (publish_while_waiting (sdl_wait_enter init) false
              (ex_intro _ [LWaitEnter] eq_refl) eq_refl eq_refl)
    as (s' & E & S & _).
  exists s'. split; [exact E | exact S].
Defined.

Lemma emu_step_presenting (s s' : state) (l : label) (h : bufid) :
  sdl s = PPresenting h -> ready_to_draw_new_frame s = false ->
  back_buffer s <> h -> emu_label l = true -> exec_step s l = Some s' ->
  sdl s' = PPresenting h /\ ready_to_draw_new_frame s' = false /\
  back_buffer s' = back_buffer s /\ render_buffers s' h = render_buffers s h.
Proof.
  intros S Rd B L E.
  destruct l as [x y c | | | | | q]; try discriminate L; simpl in E.
  - unfold put_pixel in E.
    destruct (negb (x <? 256)), (negb (y <? 240)); try discriminate.
    injection E as <-. simpl. repeat split; auto.
    unfold upd_buf. rewrite bufid_eqb_false; auto.
  - injection E as <-. rewrite draw_frame_eq, Rd. simpl. auto.
  - injection E as <-. rewrite exit_sdl_thread_eq. simpl. rewrite S. simpl. auto.
Qed.

Lemma emu_run_presenting (s s' : state) (ls : list label) (h : bufid) :
  sdl s = PPresenting h -> ready_to_draw_new_frame s = false ->
  back_buffer s <> h -> forallb emu_label ls = true -> run s ls = Some s' ->
  sdl s' = PPresenting h /\ render_buffers s' h = render_buffers s h.
Proof.
  revert s. induction ls as [|l ls IH]; simpl; intros s S Rd B L E.
  - injection E as <-. auto.
  - apply andb_true_iff in L as [L1 L2].
    destruct (exec_step s l) as [m|] eqn:E1; try discriminate.
    destruct (emu_step_presenting s m l h S Rd B L1 E1) as (S1 & R1 & B1 & H1).
    destruct (IH m S1 R1 ltac:(congruence) L2 E) as [S2 H2].
    split; [exact S2 | congruence].
Qed.

(** While the SDL thread uploads the buffer it picked up, nothing the
    emulation thread or the shutdown path does ([put_pixel], [draw_frame],
    [exit_sdl_thread], in any number) changes a pixel of that buffer: the
    uploaded frame cannot tear. *)
Theorem presented_buffer_untouched (s s' : state) (h : bufid) (ls : list label)
  (R : reachable s) (S : sdl s = PPresenting h)
  (L : forallb emu_label ls = true) (E : run s ls = Some s') :
  sdl s' = PPresenting h /\ render_buffers s' h = render_buffers s h.
Proof.
  destruct (reachable_inv s R) as (Hd & _ & _ & Hp).
  destruct (Hp h S) as [Hf Rd].
  apply (emu_run_presenting s s' ls h S Rd); [congruence | exact L | exact E].
Qed.

Lemma presented_buffer_untouched_witness :
  exists s0 s', run init [LWaitEnter; LDrawFrame; LWaitWake] = Some s0 /\
    run s0 [LPutPixel 3 4 7; LDrawFrame; LPutPixel 5 6 9] = Some s' /\
    sdl s' = PPresenting Buf0 /\
    render_buffers s' Buf0 = render_buffers s0 Buf0.
Proof.
  set (s0 := match run init [LWaitEnter; LDrawFrame; LWaitWake] with
             | Some t => t | None => init end).
  set (s' := match run s0 [LPutPixel 3 4 7; LDrawFrame; LPutPixel 5 6 9] with
             | Some t => t | None => init end).
  assert (E0 : run init [LWaitEnter; LDrawFrame; LWaitWake] = Some s0)
    by (vm_compute; reflexivity).
  assert (E1 : run s0 [LPutPixel 3 4 7; LDrawFrame; LPutPixel 5 6 9] = Some s')
    by (vm_compute; reflexivity).
  assert (S0 : sdl s0 = PPresenting Buf0) by (vm_compute; reflexivity).
  assert (L : forallb emu_label [LPutPixel 3 4 7; LDrawFrame; LPutPixel 5 6 9] = true)
    by reflexivity.
  exists s0, s'. split; [exact E0|]. split; [exact E1|].
  exact (presented_buffer_untouched s0 s' Buf0
           [LPutPixel 3 4 7; LDrawFrame; LPutPixel 5 6 9]
           (ex_intro _ _ E0) S0 L E1).
Defined.

(** From any state, after [exit_sdl_thread] the SDL thread returns on its
    own, in at most two of its steps and with no [draw_frame] needed,
    whatever point of its loop it was at. *)
Theorem exit_reaches_exited (s : state) :
  exists ls s', forallb sdl_label ls = true /\ (length ls <= 2)%nat /\
    run (exit_sdl_thread s) ls = Some s' /\ sdl s' = PExited /\
    render_buffers s' = render_buffers s.
Proof.
  rewrite exit_sdl_thread_eq.
  destruct (sdl s) as [ | w | h | ] eqn:S; cbn [wake_waiter].
  - exists [LWaitEnter]. eexists. split; [reflexivity|]. split; [cbn; lia|].
    cbn [run exec_step sdl]. split; [reflexivity|].
    unfold sdl_wait_enter, log_ev. rewrite wait_test_exit by reflexivity.
    split; reflexivity.
  - exists [LWaitWake]. eexists. split; [reflexivity|]. split; [cbn; lia|].
    cbn [run exec_step sdl]. split; [reflexivity|].
    unfold sdl_wait_wake, log_ev. rewrite wait_test_exit by reflexivity.
    split; reflexivity.
  - exists [LPresent false; LWaitEnter]. eexists. split; [reflexivity|].
    split; [cbn; lia|].
    cbn [run exec_step sdl sdl_present]. split; [reflexivity|].
    unfold sdl_wait_enter, log_ev. rewrite wait_test_exit by reflexivity.
    split; reflexivity.
  - exists []. eexists. split; [reflexivity|]. split; [cbn; lia|].
    split; [reflexivity|]. split; reflexivity.
Qed.

(** An [SDL_QUIT] seen by [process_events] ends the SDL thread at the top of
    its next loop iteration, even with a frame available, which is then
    never picked up. *)
Theorem quit_event_exits (s : state) (h : bufid) :
  sdl s = PPresenting h ->
  exists s', run s [LPresent true; LWaitEnter] = Some s' /\
    sdl s' = PExited /\ pending_sdl_thread_exit s' = true /\
    frame_available s' = frame_available s /\
    front_buffer s' = front_buffer s /\ render_buffers s' = render_buffers s.
Proof.
  intros S. cbn [run exec_step]. rewrite S.
  cbn [run exec_step sdl sdl_present].
  unfold sdl_wait_enter, log_ev.
  rewrite wait_test_exit by (cbn; apply orb_true_r).
  eexists. split; [reflexivity|]. cbn.
  repeat split; destruct (pending_sdl_thread_exit s); reflexivity.
Qed.

Lemma quit_event_exits_witness :
  exists s', run (sdl_wait_wake (draw_frame (sdl_wait_enter init)))
               [LPresent true; LWaitEnter] = Some s' /\
    sdl s' = PExited /\ pending_sdl_thread_exit s' = true /\
    frame_available s' = false /\ front_buffer s' = Buf0 /\
    render_buffers s' = render_buffers init.
Proof.
  exact (quit_event_exits (sdl_wait_wake (draw_frame (sdl_wait_enter init))) Buf0
           eq_refl).
Defined.

End HandoffExtra.

(** * Further properties of the UI hotkeys *)
Module InputExtra.
Import Input.

Lemma hk_cycle (s s1 : istate) :
  irun s handle_ui_keys = Some s1 ->
  emu s = HKStart /\ event_lock s = None /\
  get (keys s) SDL_SCANCODE_ESCAPE = 0 /\
  keys s1 = keys s /\ keys_size s1 = keys_size s /\
  keys_lf s1 = (if keys_size s =? 0 then keys_lf s
                else copy_prefix (keys s) (keys_lf s) (Z.to_nat (keys_size s))) /\
  show_debugger s1 = show_debugger (ui_reads s) /\
  effects s1 = effects (ui_reads s) /\
  emu s1 = HKStart /\ event_lock s1 = None /\ reset_pushed s1 = reset_pushed s.
Proof.
  destruct s as [k lf n lk e sd rp ef lg].
  unfold handle_ui_keys. cbn [irun istep emu event_lock].
  destruct e; try discriminate. destruct lk; try discriminate.
  cbn. destruct (nth SDL_SCANCODE_ESCAPE k 0 =? 0) eqn:Esc; cbn; [|discriminate].
  intros E. injection E as <-. apply Z.eqb_eq in Esc.
  cbn. rewrite Esc. cbn. repeat split; auto.
Qed.

Lemma key_pressed_committed (k lf : list Z) (n : Z) (i : nat) :
  n = Z.of_nat (length k) ->
  KEY_PRESSED k (if n =? 0 then lf else copy_prefix k lf (Z.to_nat n)) i = 0.
Proof.
  intros Hn. unfold KEY_PRESSED, get.
  destruct (Nat.lt_ge_cases i (length k)) as [Hi | Hi].
  - replace (n =? 0) with false by (symmetry; apply Z.eqb_neq; lia).
    unfold copy_prefix. rewrite Hn, Nat2Z.id, firstn_all, app_nth1 by exact Hi.
    unfold c_not. destruct (nth i k 0 =? 0) eqn:B.
    + apply Z.eqb_eq in B. rewrite B. reflexivity.
    + apply Z.land_0_r.
  - rewrite nth_overflow by exact Hi. apply Z.land_0_l.
Qed.

(** [handle_ui_keys] called twice with no [process_events] in between (the
    keyboard array unchanged): the [memcpy] of the first call has made
    [keys_lf] equal to [keys], so the second call sees no key press: no
    corruption-rate change and no debugger toggle. *)
Theorem repeat_cycle_no_edges (s s1 s2 : istate) :
  keys_size s = Z.of_nat (length (keys s)) ->
  irun s handle_ui_keys = Some s1 -> irun s1 handle_ui_keys = Some s2 ->
  show_debugger s2 = show_debugger s1 /\
  exists es, effects s2 = effects s1 ++ es /\
    ~ In CorruptUp es /\ ~ In CorruptDown es.
Proof.
  intros Hn E1 E2.
  destruct (hk_cycle s s1 E1) as (_ & _ & _ & K1 & N1 & L1 & _).
  destruct (hk_cycle s1 s2 E2) as (_ & _ & Esc & _ & _ & _ & D2 & F2 & _).
  rewrite D2, F2. unfold ui_reads. cbn [show_debugger effects keys keys_lf].
  rewrite Esc, L1, K1.
  rewrite !(key_pressed_committed (keys s) (keys_lf s) (keys_size s)) by exact Hn.
  cbn [Z.eqb negb]. rewrite andb_false_r.
  split; [reflexivity|].
  eexists. split; [reflexivity|].
  cbn [app]. split; intros H.
  all: destruct (negb (get (keys s) SDL_SCANCODE_F5 =? 0)),
         (negb (get (keys s) SDL_SCANCODE_F8 =? 0)), (reset_pushed s1);
    simpl in H; intuition discriminate.
Qed.

Lemma repeat_cycle_no_edges_witness :
  let s := mkIState (held_keys [SDL_SCANCODE_F3; SDL_SCANCODE_LALT; SDL_SCANCODE_D])
             (repeat 0 SDL_NUM_SCANCODES) (Z.of_nat SDL_NUM_SCANCODES)
             None HKStart false false [] [] in
  let s1 := match irun s handle_ui_keys with Some t => t | None => s end in
  let s2 := match irun s1 handle_ui_keys with Some t => t | None => s end in
  show_debugger s1 = true /\ effects s1 = [CorruptUp; Rewind false] /\
  show_debugger s2 = show_debugger s1 /\
  exists es, effects s2 = effects s1 ++ es /\
    ~ In CorruptUp es /\ ~ In CorruptDown es.
Proof.
  intros s s1 s2.
  split; [vm_compute; reflexivity|]. split; [vm_compute; reflexivity|].
  apply (repeat_cycle_no_edges s s1 s2).
  - vm_compute. reflexivity.
  - vm_compute. reflexivity.
  - vm_compute. reflexivity.
Defined.

(** With [Escape] held, [handle_ui_keys] takes [event_lock] and leaves
    through [exit(0)] before any other key is looked at: no hotkey effect,
    no debugger toggle, and the emulation thread takes no further step. *)
Theorem escape_exits (s : istate) :
  emu s = HKStart -> event_lock s = None ->
  get (keys s) SDL_SCANCODE_ESCAPE <> 0 ->
  exists s', irun s [HkLock; HkBody] = Some s' /\
    emu s' = HKExit /\ effects s' = effects s /\
    show_debugger s' = show_debugger s /\ keys_lf s' = keys_lf s /\
    event_lock s' = Some Emu /\
    istep s' HkLock = None /\ istep s' HkBody = None /\
    istep s' HkUnlock = None /\ istep s' HkCommit = None.
Proof.
  destruct s as [k lf n lk e sd rp ef lg]; cbn. intros -> -> Esc.
  unfold get in Esc. apply Z.eqb_neq in Esc. cbn. unfold ui_reads, get. cbn.
  rewrite Esc. cbn.
  eexists. split; [reflexivity|]. repeat split.
Qed.

Lemma escape_exits_witness :
  exists s', irun (mkIState (held_keys [SDL_SCANCODE_ESCAPE; SDL_SCANCODE_F5])
                    (repeat 0 SDL_NUM_SCANCODES) (Z.of_nat SDL_NUM_SCANCODES)
                    None HKStart false true [] []) [HkLock; HkBody] = Some s' /\
    emu s' = HKExit /\ effects s' = [] /\
    show_debugger s' = false /\ keys_lf s' = repeat 0 SDL_NUM_SCANCODES /\
    event_lock s' = Some Emu /\
    istep s' HkLock = None /\ istep s' HkBody = None /\
    istep s' HkUnlock = None /\ istep s' HkCommit = None.
Proof.
  apply escape_exits; [reflexivity | reflexivity | vm_compute; discriminate].
Defined.

End InputExtra.

(** * Properties of the letterboxing *)
Module VideoFacts.
Import Video.

(** [boxify] gives a viewport inside the window that fills its width or its
    height, is centred (the two margins differ by at most one pixel), and
    has the 4:3 shape of the NES picture up to the truncations:
    [3*w - 4*h] is between -2 and 3. *)
Theorem boxify_fits (win_w win_h : Z) :
  0 < win_w -> 0 < win_h ->
  0 <= rx (boxify win_w win_h) /\ 0 <= ry (boxify win_w win_h) /\
  rx (boxify win_w win_h) + rw (boxify win_w win_h) <= win_w /\
  ry (boxify win_w win_h) + rh (boxify win_w win_h) <= win_h /\
  (rw (boxify win_w win_h) = win_w \/ rh (boxify win_w win_h) = win_h) /\
  0 <= win_w - rw (boxify win_w win_h) - 2 * rx (boxify win_w win_h) <= 1 /\
  0 <= win_h - rh (boxify win_w win_h) - 2 * ry (boxify win_w win_h) <= 1 /\
  -2 <= 3 * rw (boxify win_w win_h) - 4 * rh (boxify win_w win_h) <= 3.
Proof.
  intros Hw Hh. unfold boxify.
  destruct (4 * win_h <=? 3 * win_w) eqn:B; cbn [rx ry rw rh];
    [apply Z.leb_le in B | apply Z.leb_gt in B].
  - pose proof (Z.div_mod (4 * win_h) 3 ltac:(lia)).
    pose proof (Z.mod_pos_bound (4 * win_h) 3 ltac:(lia)).
    assert (Q1 : Z.quot (win_w - 4 * win_h / 3) 2 = (win_w - 4 * win_h / 3) / 2)
      by (apply Z.quot_div_nonneg; lia).
    assert (Q2 : Z.quot (win_h - win_h) 2 = 0) by (rewrite Z.sub_diag; reflexivity).
    rewrite Q1, Q2.
    pose proof (Z.div_mod (win_w - 4 * win_h / 3) 2 ltac:(lia)).
    pose proof (Z.mod_pos_bound (win_w - 4 * win_h / 3) 2 ltac:(lia)).
    lia.
  - pose proof (Z.div_mod (3 * win_w) 4 ltac:(lia)).
    pose proof (Z.mod_pos_bound (3 * win_w) 4 ltac:(lia)).
    assert (Q1 : Z.quot (win_h - 3 * win_w / 4) 2 = (win_h - 3 * win_w / 4) / 2)
      by (apply Z.quot_div_nonneg; lia).
    assert (Q2 : Z.quot (win_w - win_w) 2 = 0) by (rewrite Z.sub_diag; reflexivity).
    rewrite Q1, Q2.
    pose proof (Z.div_mod (win_h - 3 * win_w / 4) 2 ltac:(lia)).
    pose proof (Z.mod_pos_bound (win_h - 3 * win_w / 4) 2 ltac:(lia)).
    lia.
Qed.

Lemma boxify_fits_witness :
  boxify 1001 600 = mkRect 100 0 800 600 /\ boxify 640 501 = mkRect 0 10 640 480 /\
  0 <= rx (boxify 1001 600) /\ 0 <= ry (boxify 1001 600) /\
  rx (boxify 1001 600) + rw (boxify 1001 600) <= 1001 /\
  ry (boxify 1001 600) + rh (boxify 1001 600) <= 600 /\
  (rw (boxify 1001 600) = 1001 \/ rh (boxify 1001 600) = 600) /\
  0 <= 1001 - rw (boxify 1001 600) - 2 * rx (boxify 1001 600) <= 1 /\
  0 <= 600 - rh (boxify 1001 600) - 2 * ry (boxify 1001 600) <= 1 /\
  -2 <= 3 * rw (boxify 1001 600) - 4 * rh (boxify 1001 600) <= 3.
Proof.
  split; [reflexivity|]. split; [reflexivity|].
  apply boxify_fits; lia.
Defined.

End VideoFacts.
